(** * Bookstore query catalogue (src/queries.js), shallow embedding

    Every function of queries.js opens a client, sends one request to the
    [books] collection, prints what comes back and closes the client in a
    [finally] block.  The collection is modelled as the list of its
    documents in natural order; the client as a state/error monad over
    the store that also records, in order, every request the store
    receives.  Prices are JS numbers; they are modelled by rationals. *)

From Stdlib Require Import String List ZArith QArith Qround Permutation Sorted Bool Lia.
Import ListNotations.

(** ** Documents *)

Record book := mkBook {
  title : string;
  author : string;
  price : Q;
  published_year : Z;
  genre : string;
  in_stock : bool
}.

(** The projection [{ title: 1, author: 1, price: 1, _id: 0 }]. *)
Record projected := mkProjected {
  p_title : string;
  p_author : string;
  p_price : Q
}.

Definition project (b : book) : projected :=
  mkProjected (title b) (author b) (price b).

(** ** Query documents *)

(** One field condition of a filter document; a filter document is the
    conjunction of its conditions ([{}] is the empty list). *)
Inductive cond :=
| CGenre (g : string)            (* { genre } *)
| CAuthor (a : string)           (* { author } *)
| CTitle (t : string)            (* { title } *)
| CInStock (v : bool)            (* { in_stock: v } *)
| CYearGt (y : Z).               (* { published_year: { $gt: y } } *)

Definition cond_holds (c : cond) (b : book) : bool :=
  match c with
  | CGenre g => String.eqb (genre b) g
  | CAuthor a => String.eqb (author b) a
  | CTitle t => String.eqb (title b) t
  | CInStock v => Bool.eqb (in_stock b) v
  | CYearGt y => Z.ltb y (published_year b)
  end.

Definition matches (f : list cond) (b : book) : bool :=
  forallb (fun c => cond_holds c b) f.

(** A find cursor: filter, [.sort({ price: d })], [.skip(n)], [.limit(n)];
    the projection is always the one above. *)
Record find_cursor := mkCursor {
  fc_filter : list cond;
  fc_sort : option Z;
  fc_skip : option Z;
  fc_limit : option Z
}.

(** The two aggregation pipelines of the file. *)
Inductive pipeline :=
| PipeAvgPriceByGenre    (* [$group avg price by genre; $sort avgPrice -1] *)
| PipeAuthorMostBooks.   (* [$group count by author; $sort bookCount -1; $limit 1] *)

(** Requests the store receives. *)
Inductive request :=
| ReqConnect
| ReqFind (c : find_cursor)
| ReqUpdateOne (t : string) (new_price : Q)
| ReqDeleteOne (t : string)
| ReqAggregate (p : pipeline)
| ReqClose.

(** ** Sorting as done by the store *)

Section SortBy.
Context {A : Type} (le : A -> A -> bool).

Fixpoint insert_by (x : A) (l : list A) : list A :=
  match l with
  | [] => [x]
  | y :: r => if le x y then x :: y :: r else y :: insert_by x r
  end.

Fixpoint sort_by (l : list A) : list A :=
  match l with
  | [] => []
  | x :: r => insert_by x (sort_by r)
  end.
End SortBy.

Definition price_asc (a b : book) : bool := Qle_bool (price a) (price b).
Definition price_desc (a b : book) : bool := Qle_bool (price b) (price a).

(** ** Outcomes and the client monad *)

Inductive outcome (A : Type) :=
| Ok (a : A)
| Err (msg : string).
Arguments Ok {A} a.
Arguments Err {A} msg.

Record store := mkStore {
  docs : list book;
  log : list request
}.

Definition M (A : Type) : Type := store -> outcome A * store.

Definition ret {A} (a : A) : M A := fun s => (Ok a, s).

Definition bind {A B} (m : M A) (k : A -> M B) : M B :=
  fun s => match m s with
           | (Ok a, s') => k a s'
           | (Err e, s') => (Err e, s')
           end.

Notation "x <- m ;; k" := (bind m (fun x => k))
  (at level 61, m at next level, right associativity).
Notation "m ;;; k" := (bind m (fun _ => k))
  (at level 61, right associativity).

(** [try { m } finally { k }]: [k] runs on both paths, the outcome of [m]
    is the outcome of the whole. *)
Definition try_finally {A} (m : M A) (k : M unit) : M A :=
  fun s => let '(r, s1) := m s in
           let '(_, s2) := k s1 in (r, s2).

Definition send (r : request) : M unit :=
  fun s => (Ok tt, mkStore (docs s) (log s ++ [r])).

(** ** What the store does with each request *)

Definition apply_sort (d : option Z) (l : list book) : outcome (list book) :=
  match d with
  | None => Ok l
  | Some d =>
      if Z.eqb d 1 then Ok (sort_by price_asc l)
      else if Z.eqb d (-1) then Ok (sort_by price_desc l)
      else Err "bad sort specification"%string
  end.

(** A negative skip is refused by the server. *)
Definition apply_skip {A} (n : option Z) (l : list A) : outcome (list A) :=
  match n with
  | None => Ok l
  | Some n => if Z.ltb n 0 then Err "skip value must be non-negative"%string
              else Ok (skipn (Z.to_nat n) l)
  end.

(** [limit(0)] is no limit; a negative limit returns at most |n| documents. *)
Definition apply_limit {A} (n : option Z) (l : list A) : list A :=
  match n with
  | None => l
  | Some n => if Z.eqb n 0 then l else firstn (Z.abs_nat n) l
  end.

(** The server applies filter, sort, skip and limit in this order,
    whatever the order of the cursor calls, then the projection. *)
Definition run_find (c : find_cursor) (ds : list book) : outcome (list projected) :=
  match apply_sort (fc_sort c) (filter (matches (fc_filter c)) ds) with
  | Err e => Err e
  | Ok sorted =>
      match apply_skip (fc_skip c) sorted with
      | Err e => Err e
      | Ok rest => Ok (map project (apply_limit (fc_limit c) rest))
      end
  end.

Definition set_price (b : book) (p : Q) : book :=
  mkBook (title b) (author b) p (published_year b) (genre b) (in_stock b).

(** [updateOne({ title }, { $set: { price } })]: the first document in
    natural order with that title.  Prices are identified by their numeric
    value here, so it counts as modified exactly when the value changes;
    the BSON types that the server also compares are refined in [Typed]
    below.  Result: ((matched, modified), documents). *)
Fixpoint update_one (t : string) (p : Q) (ds : list book)
  : (nat * nat) * list book :=
  match ds with
  | [] => ((0, 0)%nat, [])
  | b :: r =>
      if String.eqb (title b) t then
        if Qeq_bool (price b) p then ((1, 0)%nat, b :: r)
        else ((1, 1)%nat, set_price b p :: r)
      else let '(cnt, r') := update_one t p r in (cnt, b :: r')
  end.

(** [deleteOne({ title })]: removes the first document with that title. *)
Fixpoint delete_one (t : string) (ds : list book) : nat * list book :=
  match ds with
  | [] => (0%nat, [])
  | b :: r =>
      if String.eqb (title b) t then (1%nat, r)
      else let '(n, r') := delete_one t r in (n, b :: r')
  end.

(** [$group: { _id: "$genre", avgPrice: { $avg: "$price" } }]: running
    (sum, count) per key.  The order of the groups leaving [$group] is not
    specified by the server; here it is the order of [fold_right]. *)
Fixpoint add_price (g : string) (p : Q) (gs : list (string * (Q * Z)))
  : list (string * (Q * Z)) :=
  match gs with
  | [] => [(g, (p, 1%Z))]
  | (k, (sm, n)) :: r =>
      if String.eqb k g then (k, (sm + p, (n + 1)%Z)) :: r
      else (k, (sm, n)) :: add_price g p r
  end.

Definition group_by_genre (ds : list book) : list (string * (Q * Z)) :=
  fold_right (fun b gs => add_price (genre b) (price b) gs) [] ds.

(** IEEE-754 binary64 rounding of a rational, to nearest with ties to
    even: a 53-bit significand, exponents down to the subnormal range
    (least step 2^-1074); overflow is outside the prices handled here.
    [floor_log2 n d] is the exponent of the leading bit of [n / d]. *)
Definition round_half_even (num den : Z) : Z :=
  let q := (num / den)%Z in
  let r := (num mod den)%Z in
  match Z.compare (2 * r) den with
  | Lt => q
  | Gt => (q + 1)%Z
  | Eq => if Z.even q then q else (q + 1)%Z
  end.

Definition floor_log2 (n d : Z) : Z :=
  let k := (Z.log2 n - Z.log2 d)%Z in
  if Z.leb 0 k then (if Z.leb (d * 2 ^ k) n then k else (k - 1)%Z)
  else (if Z.leb d (n * 2 ^ (- k)) then k else (k - 1)%Z).

Definition round_double (x : Q) : Q :=
  let r := Qred x in
  let n := Z.abs (Qnum r) in
  let d := Zpos (Qden r) in
  let e := Z.max (floor_log2 n d - 52) (-1074) in
  let m := if Z.leb 0 e then round_half_even n (d * 2 ^ e)
           else round_half_even (n * 2 ^ (- e)) d in
  let m := if Z.ltb (Qnum r) 0 then (- m)%Z else m in
  Qred (if Z.leb 0 e then inject_Z (m * 2 ^ e) else m # Z.to_pos (2 ^ (- e))).

(** [$avg] returns a double: the running sum (kept by the server in
    double-double precision, exact for these sums) rounded to a double,
    divided in double arithmetic by the count. *)
Definition avg_of (e : string * (Q * Z)) : string * Q :=
  let '(g, (sm, n)) := e in (g, round_double (round_double sm / inject_Z n)).

Definition avg_desc (x y : string * Q) : bool := Qle_bool (snd y) (snd x).

Definition run_avg_price_by_genre (ds : list book) : list (string * Q) :=
  sort_by avg_desc (map avg_of (group_by_genre ds)).

(** [$group: { _id: "$author", bookCount: { $sum: 1 } }]. *)
Fixpoint add_one (a : string) (gs : list (string * Z)) : list (string * Z) :=
  match gs with
  | [] => [(a, 1%Z)]
  | (k, n) :: r => if String.eqb k a then (k, (n + 1)%Z) :: r
                   else (k, n) :: add_one a r
  end.

Definition group_by_author (ds : list book) : list (string * Z) :=
  fold_right (fun b gs => add_one (author b) gs) [] ds.

Definition count_desc (x y : string * Z) : bool := Z.leb (snd y) (snd x).

Definition run_author_most_books (ds : list book) : list (string * Z) :=
  firstn 1 (sort_by count_desc (group_by_author ds)).

(** ** Client-side primitives *)

Definition find (c : find_cursor) : M (list projected) :=
  send (ReqFind c) ;;; (fun s => (run_find c (docs s), s)).

Definition updateOne (t : string) (p : Q) : M (nat * nat) :=
  send (ReqUpdateOne t p) ;;;
  (fun s => let '(cnt, ds') := update_one t p (docs s) in
            (Ok cnt, mkStore ds' (log s))).

Definition deleteOne (t : string) : M nat :=
  send (ReqDeleteOne t) ;;;
  (fun s => let '(n, ds') := delete_one t (docs s) in
            (Ok n, mkStore ds' (log s))).

Definition aggregate_avg : M (list (string * Q)) :=
  send (ReqAggregate PipeAvgPriceByGenre) ;;;
  (fun s => (Ok (run_avg_price_by_genre (docs s)), s)).

Definition aggregate_top_author : M (list (string * Z)) :=
  send (ReqAggregate PipeAuthorMostBooks) ;;;
  (fun s => (Ok (run_author_most_books (docs s)), s)).

(** [const client = new MongoClient(uri); try { await client.connect(); ... }
    finally { await client.close(); }] *)
Definition with_client {A} (body : M A) : M A :=
  try_finally (send ReqConnect ;;; body) (send ReqClose).

(** ** The functions of queries.js; each returns what it prints *)

Definition findBooksByGenre (g : string) : M (list projected) :=
  with_client (find (mkCursor [CGenre g] None None None)).

Definition findBooksAfterYear (year : Z) : M (list projected) :=
  with_client (find (mkCursor [CYearGt year] None None None)).

Definition findBooksByAuthor (a : string) : M (list projected) :=
  with_client (find (mkCursor [CAuthor a] None None None)).

Definition updateBookPrice (t : string) (newPrice : Q) : M (nat * nat) :=
  with_client (updateOne t newPrice).

Definition deleteBookByTitle (t : string) : M nat :=
  with_client (deleteOne t).

Definition findAvailableBooksAfterYear (year : Z) : M (list projected) :=
  with_client (find (mkCursor [CInStock true; CYearGt year] None None None)).

Definition findBooksSortedByPrice (order : string) : M (list projected) :=
  with_client
    (let sortOrder := if String.eqb order "asc" then 1%Z else (-1)%Z in
     find (mkCursor [] (Some sortOrder) None None)).

Definition findBooksPaginated (page : Z) : M (list projected) :=
  with_client
    (let pageSize := 5%Z in
     let skipCount := ((page - 1) * pageSize)%Z in
     find (mkCursor [] None (Some skipCount) (Some pageSize))).

Definition averagePriceByGenre : M (list (string * Q)) :=
  with_client aggregate_avg.

Definition authorWithMostBooks : M (list (string * Z)) :=
  with_client aggregate_top_author.

(** Running an operation on a collection with an empty request log. *)
Definition run {A} (m : M A) (ds : list book) : outcome A * store :=
  m (mkStore ds []).

Definition eval {A} (m : M A) (ds : list book) : outcome A := fst (run m ds).

Definition after {A} (m : M A) (ds : list book) : list book := docs (snd (run m ds)).


(** The unpaginated result set: [find({})] with the same projection. *)
Definition findAll : M (list projected) :=
  with_client (find (mkCursor [] None None None)).

(** ** Prices as typed BSON numbers

    The documents store a price as a BSON number with a type; the update
    sends [newPrice] as the driver encodes a JS number, and the server's
    [$set] leaves a field alone only when the new value is binary-equal to
    the stored one, i.e. has the same BSON type and the same value.  This
    module refines the documents and [updateBookPrice] with that type
    (int32 and double prices; other numeric types are not modelled); a
    document is read through [to_book], so finds are the ones above. *)
Module Typed.

Inductive bson_number :=
| BInt32 (z : Z)
| BDouble (q : Q).

Definition number_value (n : bson_number) : Q :=
  match n with
  | BInt32 z => inject_Z z
  | BDouble q => q
  end.

(** The driver encodes an integral JS number in the int32 range as an
    int32, any other as a double. *)
Definition js_number (q : Q) : bson_number :=
  let r := Qred q in
  if (Pos.eqb (Qden r) 1 && Z.leb (-2147483648) (Qnum r) && Z.leb (Qnum r) 2147483647)%bool
  then BInt32 (Qnum r) else BDouble q.

(** Binary equality of two BSON numbers: same type, same value. *)
Definition bson_number_eqb (a b : bson_number) : bool :=
  match a, b with
  | BInt32 x, BInt32 y => Z.eqb x y
  | BDouble x, BDouble y => Qeq_bool x y
  | _, _ => false
  end.

Record tbook := mkTBook {
  tb_title : string;
  tb_author : string;
  tb_price : bson_number;
  tb_published_year : Z;
  tb_genre : string;
  tb_in_stock : bool
}.

Definition to_book (b : tbook) : book :=
  mkBook (tb_title b) (tb_author b) (number_value (tb_price b)) (tb_published_year b)
         (tb_genre b) (tb_in_stock b).

Definition set_price (b : tbook) (p : bson_number) : tbook :=
  mkTBook (tb_title b) (tb_author b) p (tb_published_year b) (tb_genre b) (tb_in_stock b).

(** [updateOne({ title }, { $set: { price } })] on typed documents. *)
Fixpoint update_one (t : string) (p : bson_number) (ds : list tbook)
  : (nat * nat) * list tbook :=
  match ds with
  | [] => ((0, 0)%nat, [])
  | b :: r =>
      if String.eqb (tb_title b) t then
        if bson_number_eqb (tb_price b) p then ((1, 0)%nat, b :: r)
        else ((1, 1)%nat, set_price b p :: r)
      else let '(cnt, r') := update_one t p r in (cnt, b :: r')
  end.

Record store := mkStore {
  docs : list tbook;
  log : list request
}.

Definition M (A : Type) : Type := store -> outcome A * store.

Definition bind {A B} (m : M A) (k : A -> M B) : M B :=
  fun s => match m s with
           | (Ok a, s') => k a s'
           | (Err e, s') => (Err e, s')
           end.

Definition try_finally {A} (m : M A) (k : M unit) : M A :=
  fun s => let '(r, s1) := m s in
           let '(_, s2) := k s1 in (r, s2).

Definition send (r : request) : M unit :=
  fun s => (Ok tt, mkStore (docs s) (log s ++ [r])).

Definition find (c : find_cursor) : M (list projected) :=
  bind (send (ReqFind c)) (fun _ s => (run_find c (map to_book (docs s)), s)).

Definition updateOne (t : string) (p : Q) : M (nat * nat) :=
  bind (send (ReqUpdateOne t p))
    (fun _ s => let '(cnt, ds') := update_one t (js_number p) (docs s) in
                (Ok cnt, mkStore ds' (log s))).

Definition with_client {A} (body : M A) : M A :=
  try_finally (bind (send ReqConnect) (fun _ => body)) (send ReqClose).

Definition findBooksByGenre (g : string) : M (list projected) :=
  with_client (find (mkCursor [CGenre g] None None None)).

Definition findBooksByAuthor (a : string) : M (list projected) :=
  with_client (find (mkCursor [CAuthor a] None None None)).

Definition updateBookPrice (t : string) (newPrice : Q) : M (nat * nat) :=
  with_client (updateOne t newPrice).

Definition run {A} (m : M A) (ds : list tbook) : outcome A * store :=
  m (mkStore ds []).

Definition eval {A} (m : M A) (ds : list tbook) : outcome A := fst (run m ds).

Definition after {A} (m : M A) (ds : list tbook) : list tbook := docs (snd (run m ds)).

End Typed.

(** ** The example fixture of the catalogue *)

Definition bookA : book := mkBook "A" "X" 10 2000 "Fiction" true.
Definition bookB : book := mkBook "B" "Y" 20 1990 "Fiction" false.
Definition fixture : list book := [bookA; bookB].

Example fixture_after_1995 :
  eval (findBooksAfterYear 1995) fixture = Ok [project bookA].
Proof. reflexivity. Qed.

Example fixture_available_after_1985 :
  eval (findAvailableBooksAfterYear 1985) fixture = Ok [project bookA].
Proof. reflexivity. Qed.

Example fixture_sorted_desc :
  eval (findBooksSortedByPrice "desc") fixture = Ok [project bookB; project bookA].
Proof. reflexivity. Qed.

Example fixture_avg :
  eval averagePriceByGenre fixture = Ok [("Fiction"%string, 15)].
Proof. vm_compute. reflexivity. Qed.

Example fixture_page_2 :
  eval (findBooksPaginated 2) fixture = Ok [].
Proof. reflexivity. Qed.

(** ** Running the client *)

Lemma with_client_find_run (c : find_cursor) (s : store) :
  with_client (find c) s =
  (run_find c (docs s), mkStore (docs s) (log s ++ [ReqConnect] ++ [ReqFind c] ++ [ReqClose])).
Proof.
  destruct s as [ds l]; unfold with_client, try_finally, find, bind, send; simpl.
  rewrite <- ?app_assoc; reflexivity.
Qed.

Lemma eval_find (c : find_cursor) (ds : list book) :
  eval (with_client (find c)) ds = run_find c ds.
Proof. unfold eval, run. rewrite with_client_find_run. reflexivity. Qed.

Lemma after_find (c : find_cursor) (ds : list book) :
  after (with_client (find c)) ds = ds.
Proof. unfold after, run. rewrite with_client_find_run. reflexivity. Qed.

Lemma updateBookPrice_run (t : string) (p : Q) (s : store) :
  updateBookPrice t p s =
  (Ok (fst (update_one t p (docs s))),
   mkStore (snd (update_one t p (docs s)))
           (log s ++ [ReqConnect] ++ [ReqUpdateOne t p] ++ [ReqClose])).
Proof.
  destruct s as [ds l]; unfold updateBookPrice, with_client, try_finally, updateOne, bind, send;
    simpl.
  destruct (update_one t p ds) as [cnt ds']; simpl. rewrite <- ?app_assoc; reflexivity.
Qed.

Lemma deleteBookByTitle_run (t : string) (s : store) :
  deleteBookByTitle t s =
  (Ok (fst (delete_one t (docs s))),
   mkStore (snd (delete_one t (docs s)))
           (log s ++ [ReqConnect] ++ [ReqDeleteOne t] ++ [ReqClose])).
Proof.
  destruct s as [ds l]; unfold deleteBookByTitle, with_client, try_finally, deleteOne, bind, send;
    simpl.
  destruct (delete_one t ds) as [n ds']; simpl. rewrite <- ?app_assoc; reflexivity.
Qed.


Lemma eval_authorWithMostBooks (ds : list book) :
  eval authorWithMostBooks ds = Ok (run_author_most_books ds).
Proof. reflexivity. Qed.

(** ** Sorting: permutation and order *)

Section SortByFacts.
Context {A : Type} (le : A -> A -> bool).
Hypothesis le_total : forall a b, le a b = false -> le b a = true.

Lemma insert_by_perm (x : A) (l : list A) : Permutation (insert_by le x l) (x :: l).
Proof.
  induction l as [|y r IH]; simpl; [reflexivity|].
  destruct (le x y); [reflexivity|].
  rewrite IH. apply perm_swap.
Qed.

Lemma sort_by_perm (l : list A) : Permutation (sort_by le l) l.
Proof.
  induction l as [|x r IH]; simpl; [reflexivity|].
  rewrite insert_by_perm, IH. reflexivity.
Qed.

Let R := fun a b => le a b = true.

Lemma insert_by_sorted (x : A) (l : list A) : Sorted R l -> Sorted R (insert_by le x l).
Proof.
  induction l as [|y r IH]; intros Hs; simpl.
  - repeat constructor.
  - destruct (le x y) eqn:Hxy.
    + constructor; [exact Hs|]. constructor. exact Hxy.
    + apply Sorted_inv in Hs as [Hr Hh]. constructor; [now apply IH|].
      destruct r as [|z r']; simpl.
      * constructor. apply le_total, Hxy.
      * inversion Hh; subst. destruct (le x z).
        -- constructor. apply le_total, Hxy.
        -- constructor. assumption.
Qed.

Lemma sort_by_sorted (l : list A) : Sorted R (sort_by le l).
Proof.
  induction l as [|x r IH]; simpl; [constructor|].
  now apply insert_by_sorted.
Qed.
End SortByFacts.

Lemma Sorted_map {A B} (R : A -> A -> Prop) (R' : B -> B -> Prop) (f : A -> B) (l : list A) :
  (forall a b, R a b -> R' (f a) (f b)) -> Sorted R l -> Sorted R' (map f l).
Proof.
  intros HR Hs. induction Hs as [|a l Hs IH Hh]; simpl; constructor; [exact IH|].
  destruct Hh; simpl; constructor. now apply HR.
Qed.

Lemma Qle_bool_total (a b : Q) : Qle_bool a b = false -> Qle_bool b a = true.
Proof.
  intros H. apply Qle_bool_iff. destruct (Qle_bool a b) eqn:E; [discriminate|].
  assert (~ a <= b) as Hn by (intro Hc; apply Qle_bool_iff in Hc; congruence).
  apply Qnot_le_lt in Hn. now apply Qlt_le_weak.
Qed.

Lemma filter_matches_nil (ds : list book) : filter (matches []) ds = ds.
Proof. induction ds as [|b r IH]; simpl; [reflexivity|]. now rewrite IH. Qed.

Lemma eval_findBooksSortedByPrice (order : string) (ds : list book) :
  eval (findBooksSortedByPrice order) ds =
  Ok (map project (if String.eqb order "asc" then sort_by price_asc ds
                   else sort_by price_desc ds)).
Proof.
  unfold findBooksSortedByPrice. rewrite eval_find. unfold run_find; simpl.
  rewrite filter_matches_nil.
  destruct (String.eqb order "asc"); reflexivity.
Qed.

(** ** C1: sorting by price *)

(** C1. [findBooksSortedByPrice("asc")] returns every document of the
    collection, projected, in non-decreasing price order;
    [findBooksSortedByPrice("desc")] (indeed any argument other than "asc")
    returns them in non-increasing price order; both results are
    permutations of the projected collection, hence of each other. *)
Theorem findBooksSortedByPrice_spec (ds : list book) :
  exists la ld,
    eval (findBooksSortedByPrice "asc") ds = Ok la /\
    eval (findBooksSortedByPrice "desc") ds = Ok ld /\
    Sorted (fun x y => p_price x <= p_price y) la /\
    Sorted (fun x y => p_price y <= p_price x) ld /\
    Permutation la (map project ds) /\
    Permutation ld (map project ds) /\
    Permutation la ld.
Proof.
  rewrite !eval_findBooksSortedByPrice; simpl.
  eexists; eexists; split; [reflexivity|]; split; [reflexivity|].
  assert (Pa : Permutation (map project (sort_by price_asc ds)) (map project ds))
    by (apply Permutation_map, sort_by_perm).
  assert (Pd : Permutation (map project (sort_by price_desc ds)) (map project ds))
    by (apply Permutation_map, sort_by_perm).
  split; [|split; [|split; [exact Pa|split; [exact Pd|]]]].
  - apply (Sorted_map (fun a b => price_asc a b = true)).
    + intros a b H. now apply Qle_bool_iff in H.
    + apply sort_by_sorted. intros a b. apply Qle_bool_total.
  - apply (Sorted_map (fun a b => price_desc a b = true)).
    + intros a b H. now apply Qle_bool_iff in H.
    + apply sort_by_sorted. intros a b. apply Qle_bool_total.
  - rewrite Pa, Pd. reflexivity.
Qed.

(** ** Pagination *)

Lemma eval_findAll (ds : list book) : eval findAll ds = Ok (map project ds).
Proof.
  unfold findAll. rewrite eval_find. unfold run_find; simpl.
  now rewrite filter_matches_nil.
Qed.

Lemma eval_findBooksPaginated (page : Z) (ds : list book) :
  (0 < page)%Z ->
  eval (findBooksPaginated page) ds =
  Ok (map project (firstn 5 (skipn (5 * Z.to_nat (page - 1)) ds))).
Proof.
  intros Hp. unfold findBooksPaginated. rewrite eval_find. unfold run_find; simpl.
  rewrite filter_matches_nil.
  replace (Z.ltb ((page - 1) * 5) 0) with false by (symmetry; apply Z.ltb_ge; lia).
  replace (Z.to_nat ((page - 1) * 5)) with (5 * Z.to_nat (page - 1))%nat by lia.
  reflexivity.
Qed.

Lemma concat_pages {A} (l : list A) (k N : nat) :
  (length l <= 5 * (k + N))%nat ->
  concat (map (fun i => firstn 5 (skipn (5 * i) l)) (seq k N)) = skipn (5 * k) l.
Proof.
  revert k. induction N as [|N IH]; intros k Hl; cbn [seq map concat].
  - symmetry. apply skipn_all2. lia.
  - rewrite IH by lia.
    replace (5 * S k)%nat with (5 + 5 * k)%nat by lia.
    rewrite <- skipn_skipn. apply firstn_skipn.
Qed.

Lemma Forall2_map_both {A B C} (P : A -> B -> Prop) (g : C -> A) (f : C -> B) (xs : list C) :
  (forall x, In x xs -> P (g x) (f x)) -> Forall2 P (map g xs) (map f xs).
Proof.
  induction xs as [|x r IH]; intros H; simpl; constructor.
  - apply H. now left.
  - apply IH. intros y Hy. apply H. now right.
Qed.

(** ** C2: pagination *)

(** C2. For every positive page, [findBooksPaginated(page)] returns at
    most 5 documents; for every N with N pages covering the collection,
    the results of pages 1..N concatenated in order are exactly the
    unpaginated result [find({})]; every positive page past the last
    non-empty one returns the empty list, not an error. *)
Theorem findBooksPaginated_spec (ds : list book) :
  (forall page, (0 < page)%Z ->
     exists l, eval (findBooksPaginated page) ds = Ok l /\ (length l <= 5)%nat) /\
  (forall N : nat, (length ds <= 5 * N)%nat ->
     exists pages,
       Forall2 (fun p l => eval (findBooksPaginated (Z.of_nat p)) ds = Ok l) (seq 1 N) pages /\
       eval findAll ds = Ok (concat pages)) /\
  (forall page, (0 < page)%Z -> (Z.of_nat (length ds) <= 5 * (page - 1))%Z ->
     eval (findBooksPaginated page) ds = Ok []).
Proof.
  split; [|split].
  - intros page Hp. rewrite eval_findBooksPaginated by exact Hp.
    eexists; split; [reflexivity|].
    rewrite length_map. apply firstn_le_length.
  - intros N HN.
    exists (map (fun i => map project (firstn 5 (skipn (5 * i) ds))) (seq 0 N)).
    split.
    + rewrite <- seq_shift. apply Forall2_map_both.
      intros i _. rewrite eval_findBooksPaginated by lia.
      do 4 f_equal. lia.
    + rewrite eval_findAll. f_equal.
      rewrite <- (map_map (fun i => firstn 5 (skipn (5 * i) ds)) (map project)).
      rewrite <- concat_map. rewrite concat_pages by lia. reflexivity.
  - intros page Hp Hl. rewrite eval_findBooksPaginated by exact Hp.
    rewrite skipn_all2 by lia. reflexivity.
Qed.

(** ** C3: no client-side validation *)




(** ** C4: filtering by year *)

(** C4. [findBooksAfterYear(Y)] returns the projections of exactly the
    documents with [published_year > Y]: every returned entry comes from
    such a document, and every such document appears. *)
Theorem findBooksAfterYear_sound_complete (Y : Z) (ds : list book) :
  exists l,
    eval (findBooksAfterYear Y) ds = Ok l /\
    forall r, In r l <-> exists b, In b ds /\ (Y < published_year b)%Z /\ project b = r.
Proof.
  unfold findBooksAfterYear. rewrite eval_find. unfold run_find; simpl.
  eexists; split; [reflexivity|].
  intros r. rewrite in_map_iff. split.
  - intros [b [Hb Hin]]. apply filter_In in Hin as [Hin Hm].
    unfold matches in Hm; simpl in Hm. rewrite andb_true_r in Hm.
    apply Z.ltb_lt in Hm. eauto.
  - intros [b [Hin [Hy Hb]]]. exists b. split; [exact Hb|].
    apply filter_In. split; [exact Hin|].
    unfold matches; simpl. rewrite andb_true_r. now apply Z.ltb_lt.
Qed.

(** ** C5: available books after a year *)

Lemma filter_available_after (Y : Z) (ds : list book) :
  filter (matches [CInStock true; CYearGt Y]) ds =
  filter in_stock (filter (matches [CYearGt Y]) ds).
Proof.
  induction ds as [|b r IH]; [reflexivity|].
  cbn [filter]. rewrite IH. unfold matches; cbn [forallb cond_holds].
  destruct (in_stock b) eqn:E, (Z.ltb Y (published_year b)); simpl; rewrite ?E; reflexivity.
Qed.

(** C5. The documents selected by [findAvailableBooksAfterYear(Y)] are
    the documents selected by [findBooksAfterYear(Y)] that have
    [in_stock = true] (in the same order); each query returns the
    projections of its selected documents. *)
Theorem findAvailableBooksAfterYear_intersection (Y : Z) (ds : list book) :
  let after_docs := filter (fun b => Z.ltb Y (published_year b)) ds in
  let avail_docs := filter in_stock after_docs in
  eval (findBooksAfterYear Y) ds = Ok (map project after_docs) /\
  eval (findAvailableBooksAfterYear Y) ds = Ok (map project avail_docs) /\
  (forall b, In b avail_docs <-> In b after_docs /\ in_stock b = true).
Proof.
  intros after_docs avail_docs.
  assert (Ha : filter (matches [CYearGt Y]) ds = after_docs).
  { subst after_docs. apply filter_ext. intros b. unfold matches; simpl.
    apply andb_true_r. }
  split; [|split].
  - unfold findBooksAfterYear. rewrite eval_find. unfold run_find; simpl.
    now rewrite Ha.
  - unfold findAvailableBooksAfterYear. rewrite eval_find. unfold run_find; simpl.
    now rewrite filter_available_after, Ha.
  - intros b. subst avail_docs. apply filter_In.
Qed.

(** ** Updating and deleting by title *)

Lemma update_one_none (t : string) (p : Q) (ds : list book) :
  Forall (fun x => title x <> t) ds -> update_one t p ds = ((0, 0)%nat, ds).
Proof.
  induction 1 as [|x r Hx Hr IH]; simpl; [reflexivity|].
  apply String.eqb_neq in Hx. rewrite Hx, IH. reflexivity.
Qed.

Lemma update_one_first (t : string) (p : Q) (pre suf : list book) (b : book) :
  Forall (fun x => title x <> t) pre -> title b = t ->
  update_one t p (pre ++ b :: suf) =
  if Qeq_bool (price b) p then ((1, 0)%nat, pre ++ b :: suf)
  else ((1, 1)%nat, pre ++ set_price b p :: suf).
Proof.
  intros Hpre Hb. induction Hpre as [|x r Hx Hr IH]; simpl.
  - rewrite Hb, String.eqb_refl. reflexivity.
  - apply String.eqb_neq in Hx. rewrite Hx, IH.
    destruct (Qeq_bool (price b) p); reflexivity.
Qed.

Lemma update_one_cases (t : string) (p : Q) (ds : list book) :
  (Forall (fun x => title x <> t) ds /\ update_one t p ds = ((0, 0)%nat, ds)) \/
  exists pre b suf,
    ds = pre ++ b :: suf /\ title b = t /\ Forall (fun x => title x <> t) pre /\
    update_one t p ds =
      if Qeq_bool (price b) p then ((1, 0)%nat, pre ++ b :: suf)
      else ((1, 1)%nat, pre ++ set_price b p :: suf).
Proof.
  induction ds as [|x r IH].
  - left. split; [constructor|reflexivity].
  - destruct (String.eqb (title x) t) eqn:Hx.
    + right. apply String.eqb_eq in Hx. exists [], x, r.
      split; [reflexivity|split; [exact Hx|split; [constructor|]]].
      apply (update_one_first t p [] r x); [constructor|exact Hx].
    + apply String.eqb_neq in Hx. destruct IH as [[Hn _]|[pre [b [suf [Hr [Hb [Hpre _]]]]]]].
      * left. split; [now constructor|]. apply update_one_none. now constructor.
      * right. exists (x :: pre), b, suf. subst r.
        split; [reflexivity|split; [exact Hb|split; [now constructor|]]].
        apply (update_one_first t p (x :: pre)); [now constructor|exact Hb].
Qed.

Lemma delete_one_none (t : string) (ds : list book) :
  Forall (fun x => title x <> t) ds -> delete_one t ds = (0%nat, ds).
Proof.
  induction 1 as [|x r Hx Hr IH]; simpl; [reflexivity|].
  apply String.eqb_neq in Hx. rewrite Hx, IH. reflexivity.
Qed.

Lemma delete_one_first (t : string) (pre suf : list book) (b : book) :
  Forall (fun x => title x <> t) pre -> title b = t ->
  delete_one t (pre ++ b :: suf) = (1%nat, pre ++ suf).
Proof.
  intros Hpre Hb. induction Hpre as [|x r Hx Hr IH]; simpl.
  - rewrite Hb, String.eqb_refl. reflexivity.
  - apply String.eqb_neq in Hx. rewrite Hx, IH. reflexivity.
Qed.

Lemma eval_findBooksByAuthor (a : string) (ds : list book) :
  eval (findBooksByAuthor a) ds =
  Ok (map project (filter (fun b => String.eqb (author b) a) ds)).
Proof.
  unfold findBooksByAuthor. rewrite eval_find. unfold run_find; simpl.
  do 2 f_equal. apply filter_ext. intros b. unfold matches; simpl. apply andb_true_r.
Qed.

Lemma eval_findBooksByGenre (g : string) (ds : list book) :
  eval (findBooksByGenre g) ds =
  Ok (map project (filter (fun b => String.eqb (genre b) g) ds)).
Proof.
  unfold findBooksByGenre. rewrite eval_find. unfold run_find; simpl.
  do 2 f_equal. apply filter_ext. intros b. unfold matches; simpl. apply andb_true_r.
Qed.

Lemma in_filter_middle (f : book -> bool) (pre suf : list book) (b : book) :
  f b = true -> In (project b) (map project (filter f (pre ++ b :: suf))).
Proof.
  intros Hf. apply in_map. apply filter_In. split; [|exact Hf].
  apply in_or_app. right. now left.
Qed.

Lemma after_updateBookPrice (t : string) (p : Q) (ds : list book) :
  after (updateBookPrice t p) ds = snd (update_one t p ds) /\
  eval (updateBookPrice t p) ds = Ok (fst (update_one t p ds)).
Proof. unfold after, eval, run. rewrite updateBookPrice_run. split; reflexivity. Qed.

Lemma after_deleteBookByTitle (t : string) (ds : list book) :
  after (deleteBookByTitle t) ds = snd (delete_one t ds) /\
  eval (deleteBookByTitle t) ds = Ok (fst (delete_one t ds)).
Proof. unfold after, eval, run. rewrite deleteBookByTitle_run. split; reflexivity. Qed.

(** ** Updating a price: typed documents *)

Lemma typed_eval_find (c : find_cursor) (ds : list Typed.tbook) :
  Typed.eval (Typed.with_client (Typed.find c)) ds =
  eval (with_client (find c)) (map Typed.to_book ds).
Proof. reflexivity. Qed.

Lemma typed_after_updateBookPrice (t : string) (p : Q) (ds : list Typed.tbook) :
  Typed.after (Typed.updateBookPrice t p) ds = snd (Typed.update_one t (Typed.js_number p) ds) /\
  Typed.eval (Typed.updateBookPrice t p) ds = Ok (fst (Typed.update_one t (Typed.js_number p) ds)).
Proof.
  unfold Typed.after, Typed.eval, Typed.run, Typed.updateBookPrice, Typed.with_client,
    Typed.try_finally, Typed.updateOne, Typed.bind, Typed.send; simpl.
  destruct (Typed.update_one t (Typed.js_number p) ds); split; reflexivity.
Qed.

Lemma typed_update_one_none (t : string) (p : Typed.bson_number) (ds : list Typed.tbook) :
  Forall (fun x => Typed.tb_title x <> t) ds -> Typed.update_one t p ds = ((0, 0)%nat, ds).
Proof.
  induction 1 as [|x r Hx Hr IH]; simpl; [reflexivity|].
  apply String.eqb_neq in Hx. rewrite Hx, IH. reflexivity.
Qed.

Lemma typed_update_one_first (t : string) (p : Typed.bson_number)
    (pre suf : list Typed.tbook) (b : Typed.tbook) :
  Forall (fun x => Typed.tb_title x <> t) pre -> Typed.tb_title b = t ->
  Typed.update_one t p (pre ++ b :: suf) =
  if Typed.bson_number_eqb (Typed.tb_price b) p then ((1, 0)%nat, pre ++ b :: suf)
  else ((1, 1)%nat, pre ++ Typed.set_price b p :: suf).
Proof.
  intros Hpre Hb. induction Hpre as [|x r Hx Hr IH]; simpl.
  - rewrite Hb, String.eqb_refl. reflexivity.
  - apply String.eqb_neq in Hx. rewrite Hx, IH.
    destruct (Typed.bson_number_eqb (Typed.tb_price b) p); reflexivity.
Qed.

Lemma js_number_value (p : Q) : Typed.number_value (Typed.js_number p) == p.
Proof.
  unfold Typed.js_number.
  destruct (_ && _ && _)%bool eqn:E; simpl; [|reflexivity].
  apply andb_true_iff in E as [E _]. apply andb_true_iff in E as [E _].
  apply Pos.eqb_eq in E.
  rewrite <- (Qred_correct p) at 2.
  destruct (Qred p) as [n d]. simpl in E. subst d. reflexivity.
Qed.

Lemma bson_number_eqb_value (a b : Typed.bson_number) :
  Typed.bson_number_eqb a b = true -> Typed.number_value a == Typed.number_value b.
Proof.
  destruct a as [x|x], b as [y|y]; simpl; try discriminate.
  - intros H. apply Z.eqb_eq in H. subst. reflexivity.
  - apply Qeq_bool_iff.
Qed.

(** ** C6: updating a price *)

(** The fixture with its prices stored as the driver writes JS integers. *)
Definition tbookA : Typed.tbook := Typed.mkTBook "A" "X" (Typed.BInt32 10) 2000 "Fiction" true.
Definition tbookB : Typed.tbook := Typed.mkTBook "B" "Y" (Typed.BInt32 20) 1990 "Fiction" false.
Definition tfixture : list Typed.tbook := [tbookA; tbookB].

(** C6 (refuted). Setting a uniquely titled book to the price it already
    has, with the same BSON type, matches one document but modifies
    none. *)
Lemma updateBookPrice_same_price_modifies_none :
  Typed.eval (Typed.updateBookPrice "A" 10) tfixture = Ok (1%nat, 0%nat).
Proof. reflexivity. Qed.

(** The same value stored as a double is not binary-equal to the int32
    the driver sends, so the update counts as a modification. *)
Example updateBookPrice_double_to_int32_modifies :
  Typed.eval (Typed.updateBookPrice "A" 10)
    [Typed.mkTBook "A" "X" (Typed.BDouble 10) 2000 "Fiction" true] = Ok (1%nat, 1%nat).
Proof. reflexivity. Qed.

(** C6 (as the code behaves). When exactly one document has title [t],
    [updateBookPrice(t, p)] reports matched 1, and modified 0 when its
    stored price is binary-equal to [p] as the driver encodes it (same
    BSON type and value), 1 otherwise; afterwards [findBooksByAuthor] and
    [findBooksByGenre] for that document's author and genre return it with
    a price equal to [p].  When no document has title [t], it reports
    matched 0 and modified 0 (an [Ok] result, not an error) and leaves the
    collection unchanged. *)
Theorem updateBookPrice_counts (t : string) (p : Q) (ds : list Typed.tbook) :
  (forall pre b suf,
     ds = pre ++ b :: suf -> Typed.tb_title b = t ->
     Forall (fun x => Typed.tb_title x <> t) pre ->
     Forall (fun x => Typed.tb_title x <> t) suf ->
     let ds' := Typed.after (Typed.updateBookPrice t p) ds in
     Typed.eval (Typed.updateBookPrice t p) ds =
       Ok (1%nat, if Typed.bson_number_eqb (Typed.tb_price b) (Typed.js_number p)
                  then 0%nat else 1%nat) /\
     (exists q la lg,
        q == p /\
        Typed.eval (Typed.findBooksByAuthor (Typed.tb_author b)) ds' = Ok la /\
        Typed.eval (Typed.findBooksByGenre (Typed.tb_genre b)) ds' = Ok lg /\
        In (mkProjected t (Typed.tb_author b) q) la /\
        In (mkProjected t (Typed.tb_author b) q) lg)) /\
  (Forall (fun x => Typed.tb_title x <> t) ds ->
     Typed.eval (Typed.updateBookPrice t p) ds = Ok (0%nat, 0%nat) /\
     Typed.after (Typed.updateBookPrice t p) ds = ds).
Proof.
  destruct (typed_after_updateBookPrice t p ds) as [Ha He].
  split.
  - intros pre b suf Hds Hb Hpre _ ds'. subst ds'.
    rewrite He, Ha, Hds, (typed_update_one_first t _ pre suf b Hpre Hb).
    unfold Typed.findBooksByAuthor, Typed.findBooksByGenre.
    rewrite !typed_eval_find.
    fold (findBooksByAuthor (Typed.tb_author b)) (findBooksByGenre (Typed.tb_genre b)).
    rewrite !eval_findBooksByAuthor, !eval_findBooksByGenre.
    destruct (Typed.bson_number_eqb (Typed.tb_price b) (Typed.js_number p)) eqn:Hq; simpl.
    + split; [reflexivity|].
      exists (Typed.number_value (Typed.tb_price b)); eexists; eexists.
      split; [|split; [reflexivity|split; [reflexivity|]]].
      { rewrite (bson_number_eqb_value _ _ Hq). apply js_number_value. }
      rewrite <- Hb, map_app. simpl.
      change (mkProjected (Typed.tb_title b) (Typed.tb_author b)
                (Typed.number_value (Typed.tb_price b))) with (project (Typed.to_book b)).
      split; apply in_filter_middle; apply String.eqb_refl.
    + split; [reflexivity|].
      exists (Typed.number_value (Typed.js_number p)); eexists; eexists.
      split; [apply js_number_value|split; [reflexivity|split; [reflexivity|]]].
      rewrite <- Hb, map_app. simpl.
      change (mkProjected (Typed.tb_title b) (Typed.tb_author b)
                (Typed.number_value (Typed.js_number p)))
        with (project (Typed.to_book (Typed.set_price b (Typed.js_number p)))).
      split; apply in_filter_middle; apply String.eqb_refl.
  - intros Hn. rewrite He, Ha, (typed_update_one_none t _ ds Hn). split; reflexivity.
Qed.

Lemma updateBookPrice_counts_witness :
  Forall (fun x => Typed.tb_title x <> "A"%string) [tbookB] /\
  Typed.eval (Typed.updateBookPrice "A" 12) tfixture = Ok (1%nat, 1%nat).
Proof.
  assert (Hs : Forall (fun x => Typed.tb_title x <> "A"%string) [tbookB])
    by (repeat constructor; discriminate).
  split; [exact Hs|].
  destruct (updateBookPrice_counts "A" 12 tfixture) as [H _].
  destruct (H [] tbookA [tbookB] eq_refl eq_refl (Forall_nil _) Hs) as [E _].
  rewrite E. reflexivity.
Defined.

(** ** C7: deleting by title *)

(** C7. When exactly one document has title [t], [deleteBookByTitle(t)]
    removes exactly that document and reports deleted count 1; when none
    has it, it reports 0 (an [Ok] result) and the collection is unchanged. *)
Theorem deleteBookByTitle_spec (t : string) (ds : list book) :
  (forall pre b suf,
     ds = pre ++ b :: suf -> title b = t ->
     Forall (fun x => title x <> t) pre -> Forall (fun x => title x <> t) suf ->
     eval (deleteBookByTitle t) ds = Ok 1%nat /\
     after (deleteBookByTitle t) ds = pre ++ suf) /\
  (Forall (fun x => title x <> t) ds ->
     eval (deleteBookByTitle t) ds = Ok 0%nat /\
     after (deleteBookByTitle t) ds = ds).
Proof.
  destruct (after_deleteBookByTitle t ds) as [Ha He].
  rewrite Ha, He. split.
  - intros pre b suf Hds Hb Hpre _. subst ds.
    rewrite (delete_one_first t pre suf b Hpre Hb). split; reflexivity.
  - intros Hn. rewrite (delete_one_none t ds Hn). split; reflexivity.
Qed.

Lemma deleteBookByTitle_spec_witness :
  Forall (fun x => title x <> "A"%string) [bookB] /\
  eval (deleteBookByTitle "A") fixture = Ok 1%nat /\
  after (deleteBookByTitle "A") fixture = [bookB].
Proof.
  assert (Hs : Forall (fun x => title x <> "A"%string) [bookB])
    by (repeat constructor; discriminate).
  split; [exact Hs|].
  destruct (deleteBookByTitle_spec "A" fixture) as [H _].
  exact (H [] bookA [bookB] eq_refl eq_refl (Forall_nil _) Hs).
Defined.

(** ** C10: frame of [updateBookPrice] *)

(** C10. Whatever the title, price and collection, [updateBookPrice]
    either leaves the collection unchanged (no document has the title),
    or changes at most the first document [b] with that title: the result
    is the same list with [b] replaced by [b] with only its price set to
    the new one, or the collection is unchanged because [b] already had
    that price.  Other documents, including later ones with the same
    title, and the other fields of [b] are untouched. *)
Theorem updateBookPrice_frame (t : string) (p : Q) (ds : list book) :
  let ds' := after (updateBookPrice t p) ds in
  (Forall (fun x => title x <> t) ds /\ ds' = ds) \/
  exists pre b suf,
    ds = pre ++ b :: suf /\ title b = t /\ Forall (fun x => title x <> t) pre /\
    (ds' = pre ++ set_price b p :: suf \/ (ds' = ds /\ price b == p)).
Proof.
  intros ds'. destruct (after_updateBookPrice t p ds) as [Ha _].
  subst ds'. rewrite Ha.
  destruct (update_one_cases t p ds) as [[Hn E]|[pre [b [suf [Hds [Hb [Hpre E]]]]]]].
  - left. rewrite E. split; [exact Hn|reflexivity].
  - right. exists pre, b, suf. split; [exact Hds|split; [exact Hb|split; [exact Hpre|]]].
    rewrite E. destruct (Qeq_bool (price b) p) eqn:Hq; simpl.
    + right. split; [now rewrite Hds|]. now apply Qeq_bool_iff.
    + left. reflexivity.
Qed.

(** ** Grouping *)

Fixpoint lookup {V} (k : string) (gs : list (string * V)) : option V :=
  match gs with
  | [] => None
  | (k', v) :: r => if String.eqb k k' then Some v else lookup k r
  end.


Definition author_docs (a : string) (ds : list book) : list book :=
  filter (fun b => String.eqb (author b) a) ds.


Lemma lookup_In {V} (k : string) (v : V) (gs : list (string * V)) :
  lookup k gs = Some v -> In (k, v) gs.
Proof.
  induction gs as [|[k' v'] r IH]; simpl; [discriminate|].
  destruct (String.eqb k k') eqn:E.
  - apply String.eqb_eq in E. subst. intros H; injection H as ->. now left.
  - intros H. right. now apply IH.
Qed.

Lemma lookup_In_NoDup {V} (k : string) (v : V) (gs : list (string * V)) :
  NoDup (map fst gs) -> In (k, v) gs -> lookup k gs = Some v.
Proof.
  induction gs as [|[k' v'] r IH]; simpl; [contradiction|].
  intros Hnd Hin. inversion Hnd as [|? ? Hk Hr]; subst.
  destruct Hin as [E|Hin].
  - injection E as -> ->. now rewrite String.eqb_refl.
  - destruct (String.eqb k k') eqn:E.
    + apply String.eqb_eq in E. subst. exfalso. apply Hk.
      apply (in_map fst) in Hin. exact Hin.
    + now apply IH.
Qed.










(** ** C8: average price per genre *)




(** ** Counting per author *)

Lemma add_one_keys (a k : string) (gs : list (string * Z)) :
  In k (map fst (add_one a gs)) <-> k = a \/ In k (map fst gs).
Proof.
  induction gs as [|[k' n] r IH]; simpl; [intuition congruence|].
  destruct (String.eqb k' a) eqn:E; simpl.
  - apply String.eqb_eq in E. subst. intuition congruence.
  - rewrite IH. intuition congruence.
Qed.

Lemma add_one_nodup (a : string) (gs : list (string * Z)) :
  NoDup (map fst gs) -> NoDup (map fst (add_one a gs)).
Proof.
  induction gs as [|[k' n] r IH]; simpl; intros Hnd.
  - repeat constructor. simpl. tauto.
  - inversion Hnd as [|? ? Hk Hr]; subst.
    destruct (String.eqb k' a) eqn:E; simpl; constructor; auto.
    rewrite add_one_keys. apply String.eqb_neq in E. intros [H|H]; auto.
Qed.

Lemma lookup_add_one (k a : string) (gs : list (string * Z)) :
  lookup k (add_one a gs) =
  if String.eqb k a then
    Some (match lookup k gs with None => 1%Z | Some n => (n + 1)%Z end)
  else lookup k gs.
Proof.
  induction gs as [|[k' n] r IH]; simpl.
  - destruct (String.eqb k a); reflexivity.
  - destruct (String.eqb k' a) eqn:E1; simpl.
    + apply String.eqb_eq in E1. subst k'.
      destruct (String.eqb k a); reflexivity.
    + rewrite IH. destruct (String.eqb k k') eqn:E2, (String.eqb k a) eqn:E3; try reflexivity.
      apply String.eqb_eq in E2, E3. subst. now rewrite String.eqb_refl in E1.
Qed.

Lemma group_by_author_keys (k : string) (ds : list book) :
  In k (map fst (group_by_author ds)) <-> In k (map author ds).
Proof.
  induction ds as [|b r IH]; simpl; [tauto|].
  unfold group_by_author in *; simpl. rewrite add_one_keys, IH. intuition.
Qed.

Lemma group_by_author_nodup (ds : list book) : NoDup (map fst (group_by_author ds)).
Proof.
  induction ds as [|b r IH]; simpl; [constructor|].
  unfold group_by_author in *; simpl. now apply add_one_nodup.
Qed.

Lemma group_by_author_counts (k : string) (ds : list book) :
  match lookup k (group_by_author ds) with
  | None => author_docs k ds = []
  | Some n => n = Z.of_nat (length (author_docs k ds))
  end.
Proof.
  induction ds as [|b r IH]; simpl; [reflexivity|].
  unfold group_by_author in *; simpl. rewrite lookup_add_one.
  unfold author_docs in *; simpl. rewrite (String.eqb_sym (author b) k).
  destruct (String.eqb k (author b)); [|exact IH].
  destruct (lookup k _) as [n|]; simpl.
  - lia.
  - rewrite IH. reflexivity.
Qed.

Lemma count_desc_total (x y : string * Z) : count_desc x y = false -> count_desc y x = true.
Proof. unfold count_desc. rewrite !Z.leb_le, Z.leb_gt. lia. Qed.

(** [firstn 1] of the sorted groups is the group with the largest count. *)
Lemma run_author_most_books_max (ds : list book) :
  ds <> [] ->
  exists a c,
    run_author_most_books ds = [(a, c)] /\ In (a, c) (group_by_author ds) /\
    forall a' c', In (a', c') (group_by_author ds) -> (c' <= c)%Z.
Proof.
  intros Hne. unfold run_author_most_books.
  set (gs := group_by_author ds).
  pose proof (sort_by_perm count_desc gs) as Hp.
  pose proof (sort_by_sorted count_desc count_desc_total gs) as Hs.
  apply Sorted_StronglySorted in Hs;
    [|intros x y z Hxy Hyz; unfold count_desc in *; rewrite Z.leb_le in *; lia].
  destruct (sort_by count_desc gs) as [|[a c] rest] eqn:E.
  - exfalso. destruct ds as [|b r]; [contradiction|].
    assert (Hin : In (author b) (map fst gs))
      by (apply group_by_author_keys; now left).
    apply in_map_iff in Hin as [x [_ Hx]].
    apply Permutation_sym in Hp. apply (Permutation_in _ Hp) in Hx. contradiction.
  - exists a, c. split; [reflexivity|]. split.
    + apply (Permutation_in _ Hp). now left.
    + intros a' c' Hin. apply Permutation_sym in Hp.
      apply (Permutation_in _ Hp) in Hin. destruct Hin as [Hin|Hin].
      * injection Hin as -> ->. lia.
      * apply StronglySorted_inv in Hs as [_ Hf].
        rewrite Forall_forall in Hf. apply Hf in Hin.
        unfold count_desc in Hin; simpl in Hin. now apply Z.leb_le in Hin.
Qed.

(** ** C9: author with the most books *)

(** C9. On an empty collection [authorWithMostBooks()] returns the empty
    list (an [Ok] result).  Otherwise it returns a single pair [(a, c)]
    where [a] is an author of the collection, [c] is the number of
    documents by [a], and no author has more documents than [a].  In
    particular, when one author has strictly more documents than every
    other, that author and its exact count are returned. *)
Theorem authorWithMostBooks_spec (ds : list book) :
  (ds = [] -> eval authorWithMostBooks ds = Ok []) /\
  (ds <> [] ->
     exists a c,
       eval authorWithMostBooks ds = Ok [(a, c)] /\
       In a (map author ds) /\
       c = Z.of_nat (length (author_docs a ds)) /\
       forall a', (length (author_docs a' ds) <= length (author_docs a ds))%nat) /\
  (forall a,
     (forall a', a' <> a -> (length (author_docs a' ds) < length (author_docs a ds))%nat) ->
     eval authorWithMostBooks ds = Ok [(a, Z.of_nat (length (author_docs a ds)))]).
Proof.
  assert (Hmax : ds <> [] ->
     exists a c,
       eval authorWithMostBooks ds = Ok [(a, c)] /\
       In a (map author ds) /\
       c = Z.of_nat (length (author_docs a ds)) /\
       forall a', (length (author_docs a' ds) <= length (author_docs a ds))%nat).
  { intros Hne. destruct (run_author_most_books_max ds Hne) as [a [c [E [Hin Hle]]]].
    pose proof (group_by_author_counts a ds) as Hc.
    rewrite (lookup_In_NoDup a c _ (group_by_author_nodup ds) Hin) in Hc.
    exists a, c. rewrite eval_authorWithMostBooks, E.
    split; [reflexivity|split; [|split; [exact Hc|]]].
    - apply group_by_author_keys. apply (in_map fst) in Hin. exact Hin.
    - intros a'. pose proof (group_by_author_counts a' ds) as Hc'.
      destruct (lookup a' (group_by_author ds)) as [c'|] eqn:E'.
      + apply lookup_In, Hle in E'. lia.
      + rewrite Hc'. simpl. lia. }
  split; [|split; [exact Hmax|]].
  - intros ->. reflexivity.
  - intros a Hstrict.
    assert (Hne : ds <> []).
    { intros ->. assert (Hd : String Ascii.zero a <> a).
      { intros H. apply (f_equal String.length) in H. simpl in H. lia. }
      specialize (Hstrict _ Hd). simpl in Hstrict. lia. }
    destruct (Hmax Hne) as [a0 [c [E [_ [Hc Hle]]]]].
    destruct (String.eqb a0 a) eqn:Ea.
    + apply String.eqb_eq in Ea. subst a0 c. exact E.
    + apply String.eqb_neq in Ea. specialize (Hstrict a0 Ea). specialize (Hle a). lia.
Qed.

Definition fixture3 : list book :=
  [mkBook "A" "X" 10 2000 "Fiction" true;
   mkBook "C" "X" 12 2001 "Poetry" true;
   mkBook "B" "Y" 20 1990 "Fiction" false].

Lemma authorWithMostBooks_spec_witness :
  (forall a', a' <> "X"%string ->
     (length (author_docs a' fixture3) < length (author_docs "X" fixture3))%nat) /\
  eval authorWithMostBooks fixture3 = Ok [("X"%string, 2%Z)].
Proof.
  assert (H : forall a', a' <> "X"%string ->
     (length (author_docs a' fixture3) < length (author_docs "X" fixture3))%nat).
  { intros a' Hne.
    replace (length (author_docs "X" fixture3)) with 2%nat by reflexivity.
    unfold author_docs, fixture3; cbn [filter author].
    destruct (String.eqb "X" a') eqn:E.
    - apply String.eqb_eq in E. now subst.
    - destruct (String.eqb "Y" a'); cbn [length]; lia. }
  split; [exact H|].
  destruct (authorWithMostBooks_spec fixture3) as [_ [_ H3]].
  exact (H3 "X"%string H).
Defined.

(** ** Instances of the statements with hypotheses *)

Lemma findBooksPaginated_spec_witness :
  (0 < 2)%Z /\ (Z.of_nat (length fixture) <= 5 * (2 - 1))%Z /\
  eval (findBooksPaginated 2) fixture = Ok [].
Proof.
  split; [lia|split; [simpl; lia|]].
  destruct (findBooksPaginated_spec fixture) as [_ [_ H]].
  apply H; simpl; lia.
Defined.



(** * Further properties of the catalogue *)

(** ** Deleting: frame *)

Lemma delete_one_cases (t : string) (ds : list book) :
  (Forall (fun x => title x <> t) ds /\ delete_one t ds = (0%nat, ds)) \/
  exists pre b suf,
    ds = pre ++ b :: suf /\ title b = t /\ Forall (fun x => title x <> t) pre /\
    delete_one t ds = (1%nat, pre ++ suf).
Proof.
  induction ds as [|x r IH].
  - left. split; [constructor|reflexivity].
  - destruct (String.eqb (title x) t) eqn:Hx.
    + right. apply String.eqb_eq in Hx. exists [], x, r.
      split; [reflexivity|split; [exact Hx|split; [constructor|]]].
      apply (delete_one_first t [] r x); [constructor|exact Hx].
    + apply String.eqb_neq in Hx.
      destruct IH as [[Hn _]|[pre [b [suf [Hr [Hb [Hpre _]]]]]]].
      * left. split; [now constructor|]. apply delete_one_none. now constructor.
      * right. exists (x :: pre), b, suf. subst r.
        split; [reflexivity|split; [exact Hb|split; [now constructor|]]].
        apply (delete_one_first t (x :: pre)); [now constructor|exact Hb].
Qed.

(** Whatever the collection, [deleteBookByTitle(t)] either finds no
    document titled [t], reports 0 and changes nothing, or removes only
    the first document titled [t] (later ones with the same title stay)
    and reports 1; the collection shrinks by exactly the reported count. *)
Theorem deleteBookByTitle_frame (t : string) (ds : list book) :
  ((Forall (fun x => title x <> t) ds /\
    eval (deleteBookByTitle t) ds = Ok 0%nat /\ after (deleteBookByTitle t) ds = ds) \/
   exists pre b suf,
     ds = pre ++ b :: suf /\ title b = t /\ Forall (fun x => title x <> t) pre /\
     eval (deleteBookByTitle t) ds = Ok 1%nat /\
     after (deleteBookByTitle t) ds = pre ++ suf) /\
  (length (after (deleteBookByTitle t) ds) + fst (delete_one t ds) = length ds)%nat.
Proof.
  destruct (after_deleteBookByTitle t ds) as [Ha He]. rewrite Ha, He.
  destruct (delete_one_cases t ds) as [[Hn E]|[pre [b [suf [Hds [Hb [Hpre E]]]]]]];
    rewrite E; simpl.
  - split; [left; repeat split; assumption|lia].
  - split.
    + right. exists pre, b, suf. repeat split; assumption.
    + subst ds. rewrite !length_app. simpl. lia.
Qed.

(** ** Updating: idempotence *)

(** Repeating [updateBookPrice(t, p)] changes nothing more: the second
    call matches what the first matched, modifies nothing and leaves the
    collection as the first call left it. *)
Theorem updateBookPrice_idempotent (t : string) (p : Q) (ds : list book) :
  let ds1 := after (updateBookPrice t p) ds in
  eval (updateBookPrice t p) ds1 = Ok (fst (fst (update_one t p ds)), 0%nat) /\
  after (updateBookPrice t p) ds1 = ds1.
Proof.
  intros ds1. subst ds1.
  destruct (after_updateBookPrice t p ds) as [Ha _]. rewrite Ha.
  destruct (after_updateBookPrice t p (snd (update_one t p ds))) as [Ha2 He2].
  rewrite Ha2, He2.
  destruct (update_one_cases t p ds) as [[Hn E]|[pre [b [suf [Hds [Hb [Hpre E]]]]]]];
    rewrite E.
  - simpl. rewrite (update_one_none t p ds Hn). split; reflexivity.
  - destruct (Qeq_bool (price b) p) eqn:Hq; simpl.
    + rewrite (update_one_first t p pre suf b Hpre Hb), Hq. split; reflexivity.
    + assert (Hq' : Qeq_bool (price (set_price b p)) p = true)
        by (apply Qeq_bool_iff; reflexivity).
      rewrite (update_one_first t p pre suf (set_price b p) Hpre Hb), Hq'.
      split; reflexivity.
Qed.

(** ** Years and pages *)

(** Raising the year of [findBooksAfterYear] only drops entries: every
    entry returned for the larger year is returned for the smaller one. *)
Theorem findBooksAfterYear_antitone (Y1 Y2 : Z) (ds : list book) :
  (Y1 <= Y2)%Z ->
  exists l1 l2,
    eval (findBooksAfterYear Y1) ds = Ok l1 /\
    eval (findBooksAfterYear Y2) ds = Ok l2 /\
    incl l2 l1.
Proof.
  intros Hy.
  destruct (findBooksAfterYear_sound_complete Y1 ds) as [l1 [E1 H1]].
  destruct (findBooksAfterYear_sound_complete Y2 ds) as [l2 [E2 H2]].
  exists l1, l2. split; [exact E1|split; [exact E2|]].
  intros r Hr. apply H2 in Hr as [b [Hb [Hyb Hpb]]].
  apply H1. exists b. split; [exact Hb|split; [lia|exact Hpb]].
Qed.

Lemma findBooksAfterYear_antitone_witness :
  (1985 <= 1995)%Z /\
  exists l1 l2,
    eval (findBooksAfterYear 1985) fixture = Ok l1 /\
    eval (findBooksAfterYear 1995) fixture = Ok l2 /\
    incl l2 l1.
Proof.
  assert (H : (1985 <= 1995)%Z) by lia.
  split; [exact H|]. exact (findBooksAfterYear_antitone 1985 1995 fixture H).
Defined.

(** For a positive page, [findBooksPaginated(page)] returns exactly
    min(5, n - 5 (page - 1)) entries for a collection of n documents:
    full pages of 5, then one shorter page, then empty pages. *)
Theorem findBooksPaginated_length (page : Z) (ds : list book) :
  (0 < page)%Z ->
  exists l, eval (findBooksPaginated page) ds = Ok l /\
            length l = Nat.min 5 (length ds - 5 * Z.to_nat (page - 1)).
Proof.
  intros Hp. rewrite eval_findBooksPaginated by exact Hp.
  eexists; split; [reflexivity|].
  rewrite length_map, length_firstn, length_skipn. reflexivity.
Qed.

Definition fixture7 : list book :=
  map (fun n => mkBook "T" "X" (inject_Z (Z.of_nat n)) 2000 "Fiction" true) (seq 0 7).

Lemma findBooksPaginated_length_witness :
  (0 < 2)%Z /\
  exists l, eval (findBooksPaginated 2) fixture7 = Ok l /\ length l = 2%nat.
Proof.
  assert (H : (0 < 2)%Z) by lia.
  split; [exact H|].
  destruct (findBooksPaginated_length 2 fixture7 H) as [l [E Hl]].
  exists l. split; [exact E|]. rewrite Hl. reflexivity.
Defined.

(** ** Index creation (createTitleIndex, createAuthorYearIndex) *)

(** An index key document, e.g. [{ author: 1, published_year: -1 }]. *)
Definition index_key := list (string * Z).

(** Decimal rendering of a natural number, most significant digit first. *)
Fixpoint digits_aux (fuel : nat) (n : N) (acc : string) : string :=
  match fuel with
  | O => acc
  | S f =>
      let acc' := String (Ascii.ascii_of_N (48 + N.modulo n 10)) acc in
      if N.ltb n 10 then acc' else digits_aux f (N.div n 10) acc'
  end.

Definition Z_to_decimal (z : Z) : string :=
  match z with
  | Z0 => "0"
  | Zpos p => digits_aux (Pos.size_nat p) (Npos p) ""
  | Zneg p => String (Ascii.ascii_of_nat 45) (digits_aux (Pos.size_nat p) (Npos p) "")
  end.

(** The server's default index name: [field_direction] pairs joined by "_". *)
Fixpoint index_name (k : index_key) : string :=
  match k with
  | [] => ""
  | [(f, d)] => f ++ "_" ++ Z_to_decimal d
  | (f, d) :: r => f ++ "_" ++ Z_to_decimal d ++ "_" ++ index_name r
  end.













Example author_year_index_name :
  index_name [("author"%string, 1%Z); ("published_year"%string, (-1)%Z)] =
  "author_1_published_year_-1"%string.
Proof. reflexivity. Qed.

















(** ** Price updates and the unsorted finds *)

(** A result entry without its price. *)
Definition strip (r : projected) : string * string := (p_title r, p_author r).

(** Two outcomes of a find that agree except on prices. *)
Definition same_entries (o1 o2 : outcome (list projected)) : Prop :=
  match o1, o2 with
  | Ok l1, Ok l2 => map strip l1 = map strip l2
  | Err e1, Err e2 => e1 = e2
  | _, _ => False
  end.

Definition same_but_price (b b' : book) : Prop := b' = set_price b (price b').

Lemma matches_same_but_price (f : list cond) (b b' : book) :
  same_but_price b b' -> matches f b' = matches f b.
Proof.
  intros ->. unfold matches.
  induction f as [|c r IH]; simpl; [reflexivity|].
  rewrite IH. destruct c; reflexivity.
Qed.

Lemma Forall2_filter_same (f : list cond) (ds ds' : list book) :
  Forall2 same_but_price ds ds' ->
  Forall2 same_but_price (filter (matches f) ds) (filter (matches f) ds').
Proof.
  induction 1 as [|b b' r r' Hb Hr IH]; simpl; [constructor|].
  rewrite (matches_same_but_price f b b' Hb).
  destruct (matches f b); [constructor|]; assumption.
Qed.

Lemma Forall2_skipn {A B} (R : A -> B -> Prop) n l l' :
  Forall2 R l l' -> Forall2 R (skipn n l) (skipn n l').
Proof.
  intros H. revert n. induction H as [|x y r r' Hxy Hr IH]; intros [|n]; simpl;
    auto; constructor; assumption.
Qed.

Lemma Forall2_firstn {A B} (R : A -> B -> Prop) n l l' :
  Forall2 R l l' -> Forall2 R (firstn n l) (firstn n l').
Proof.
  intros H. revert n. induction H as [|x y r r' Hxy Hr IH]; intros [|n]; simpl;
    auto; constructor; auto.
Qed.

Lemma Forall2_strip (l l' : list book) :
  Forall2 same_but_price l l' -> map strip (map project l) = map strip (map project l').
Proof.
  induction 1 as [|b b' r r' Hb Hr IH]; simpl; [reflexivity|].
  rewrite IH, Hb. reflexivity.
Qed.

Lemma run_find_unsorted_same (c : find_cursor) (ds ds' : list book) :
  fc_sort c = None -> Forall2 same_but_price ds ds' ->
  same_entries (run_find c ds) (run_find c ds').
Proof.
  intros Hs H. unfold run_find. rewrite Hs. simpl.
  pose proof (Forall2_filter_same (fc_filter c) ds ds' H) as Hf.
  destruct (fc_skip c) as [n|]; simpl.
  - destruct (Z.ltb n 0); simpl; [reflexivity|].
    apply Forall2_skipn with (n := Z.to_nat n) in Hf.
    destruct (fc_limit c) as [m|]; simpl; [|now apply Forall2_strip].
    destruct (Z.eqb m 0); [now apply Forall2_strip|].
    apply Forall2_strip, Forall2_firstn, Hf.
  - destruct (fc_limit c) as [m|]; simpl; [|now apply Forall2_strip].
    destruct (Z.eqb m 0); [now apply Forall2_strip|].
    apply Forall2_strip, Forall2_firstn, Hf.
Qed.

Lemma Forall2_same_refl (l : list book) : Forall2 same_but_price l l.
Proof.
  induction l as [|[t a p y g s] r IH]; constructor; [reflexivity|exact IH].
Qed.

Lemma updateBookPrice_same_but_price (t : string) (p : Q) (ds : list book) :
  Forall2 same_but_price ds (after (updateBookPrice t p) ds).
Proof.
  destruct (after_updateBookPrice t p ds) as [Ha _]. rewrite Ha.
  destruct (update_one_cases t p ds) as [[_ E]|[pre [b [suf [Hds [_ [_ E]]]]]]];
    rewrite E; [apply Forall2_same_refl|].
  subst ds. destruct (Qeq_bool (price b) p); simpl; [apply Forall2_same_refl|].
  apply Forall2_app; [apply Forall2_same_refl|].
  constructor; [reflexivity|apply Forall2_same_refl].
Qed.

(** [updateBookPrice] never changes which entries the unsorted finds
    return, nor their order: before and after the update,
    [findBooksByGenre], [findBooksAfterYear], [findBooksByAuthor],
    [findAvailableBooksAfterYear] and [findBooksPaginated] give the same
    (title, author) sequence; only prices may differ. *)
Theorem updateBookPrice_keeps_unsorted_finds (t : string) (p : Q) (ds : list book) :
  let ds' := after (updateBookPrice t p) ds in
  (forall g, same_entries (eval (findBooksByGenre g) ds) (eval (findBooksByGenre g) ds')) /\
  (forall y, same_entries (eval (findBooksAfterYear y) ds) (eval (findBooksAfterYear y) ds')) /\
  (forall a, same_entries (eval (findBooksByAuthor a) ds) (eval (findBooksByAuthor a) ds')) /\
  (forall y, same_entries (eval (findAvailableBooksAfterYear y) ds)
                          (eval (findAvailableBooksAfterYear y) ds')) /\
  (forall page, same_entries (eval (findBooksPaginated page) ds)
                             (eval (findBooksPaginated page) ds')).
Proof.
  intros ds'. pose proof (updateBookPrice_same_but_price t p ds) as H.
  fold ds' in H.
  repeat split; intros;
    unfold findBooksByGenre, findBooksAfterYear, findBooksByAuthor,
      findAvailableBooksAfterYear, findBooksPaginated;
    rewrite !eval_find; apply run_find_unsorted_same; try reflexivity; exact H.
Qed.
